(** * encoding.c: the ASCII / UTF-8 / Latin-1 stream classifier

    A shallow embedding of [checkEncoding] from [src/encoding.c].  The
    C function reads a [FILE*] with [fgetc] until [EOF] and prints one
    label; here the stream is the finite list of the values [fgetc]
    returned before [EOF], the loop is a left fold of the loop body
    over that list, and the printed label is the returned verdict. *)

From Stdlib Require Import ZArith List Bool Lia.
From Stdlib Require String Ascii.
Import ListNotations.
Local Open Scope Z_scope.

(** ** The masks of the source *)

Module Masks.

(* 10xxxxxx *)
Definition mask_UTF8trailer : Z := 0xc0.
Definition bits_UTF8trailer : Z := 0x80.

(* 110xxxxx *)
Definition mask_UTF8leader1 : Z := 0xe0.
Definition bits_UTF8leader1 : Z := 0xc0.

(* 1110xxxx *)
Definition mask_UTF8leader2 : Z := 0xef.
Definition bits_UTF8leader2 : Z := 0xe0.

(* 11110xx *)
Definition mask_UTF8leader3 : Z := 0xf8.
Definition bits_UTF8leader3 : Z := 0xf0.

End Masks.
Export Masks.

(** ** The locals of [checkEncoding]

    [utf8Length] is a C [int]; it is kept as an unbounded [Z] and
    [utf8Length_bounds] below shows it never leaves [0..3], so the
    decrement never overflows.  The three flags are C [int]s that only
    ever hold the literals 0 and 1 and are only ever tested for
    truth; they are kept as [bool] (0 is [false], 1 is [true]). *)

Record state : Set := mkState {
  utf8Length  : Z;
  validLatin1 : bool;
  validUTF8   : bool;
  nonASCII    : bool
}.

(** The initialisers of lines 23-26. *)
Definition initial : state :=
  {| utf8Length := 0; validLatin1 := true; validUTF8 := true; nonASCII := false |}.

Definition set_utf8Length (s : state) (n : Z) : state :=
  {| utf8Length := n; validLatin1 := validLatin1 s;
     validUTF8 := validUTF8 s; nonASCII := nonASCII s |}.

Definition set_validLatin1 (s : state) (v : bool) : state :=
  {| utf8Length := utf8Length s; validLatin1 := v;
     validUTF8 := validUTF8 s; nonASCII := nonASCII s |}.

Definition set_validUTF8 (s : state) (v : bool) : state :=
  {| utf8Length := utf8Length s; validLatin1 := validLatin1 s;
     validUTF8 := v; nonASCII := nonASCII s |}.

Definition set_nonASCII (s : state) (v : bool) : state :=
  {| utf8Length := utf8Length s; validLatin1 := validLatin1 s;
     validUTF8 := validUTF8 s; nonASCII := v |}.

(** [if (utf8Length) { validUTF8 = 0; } else { utf8Length = n; }],
    the body shared by the three leader branches (lines 40, 43, 46). *)
Definition leader (s : state) (n : Z) : state :=
  if negb (utf8Length s =? 0) then set_validUTF8 s false
  else set_utf8Length s n.

(** The loop body, lines 30-50, on the value [c] that [fgetc] returned. *)
Definition step (s : state) (c : Z) : state :=
  let a := Z.land c 0xff in
  if Z.land a 0x80 =? 0 then
    if negb (utf8Length s =? 0)
    then set_utf8Length (set_validUTF8 s false) 0
    else s
  else
    let s := set_nonASCII s true in
    let s := if a <? 0xa0 then set_validLatin1 s false else s in
    if Z.land a mask_UTF8trailer =? bits_UTF8trailer then
      if utf8Length s =? 0 then set_validUTF8 s false
      else set_utf8Length s (utf8Length s - 1)
    else if Z.land a mask_UTF8leader1 =? bits_UTF8leader1 then
      leader s 1
    else if Z.land a mask_UTF8leader2 =? bits_UTF8leader2 then
      leader s 2
    else if Z.land a mask_UTF8leader3 =? bits_UTF8leader3 then
      leader s 3
    else
      set_validUTF8 s false.

(** The [while ((a = fgetc(file)) != EOF)] loop from a given state. *)
Definition scan_from (s : state) (bytes : list Z) : state :=
  fold_left step bytes s.

Definition scan (bytes : list Z) : state := scan_from initial bytes.

(** ** The verdict, lines 52-58 *)

Inductive verdict : Set := ASCII | UTF8 | Latin1 | Unknown.

Definition resolve (s : state) : verdict :=
  if negb (nonASCII s) then ASCII
  else if validUTF8 s then UTF8
  else if validLatin1 s then Latin1
  else Unknown.

Definition checkEncoding (bytes : list Z) : verdict := resolve (scan bytes).

(** The text each [printf] writes. *)
Module Output.
Import Stdlib.Strings.String Stdlib.Strings.Ascii.
Local Open Scope string_scope.

Definition newline : string := String (ascii_of_nat 10) EmptyString.

Definition printed (v : verdict) : string :=
  match v with
  | ASCII   => "ASCII" ++ newline
  | UTF8    => "UTF8" ++ newline
  | Latin1  => "Latin1" ++ newline
  | Unknown => "Unknown" ++ newline
  end.

End Output.

(** ** The byte classes as the specification words them

    These follow the specification's templates (top bits of the byte),
    not the masks of the source; they are what the claims about
    well-formed, truncated and overlong UTF-8 are stated with. *)

Module Utf8.

(** [10xxxxxx]: top two bits [10]. *)
Definition is_continuation (a : Z) : bool := Z.shiftr a 6 =? 2.

(** Number of continuation bytes the byte announces when it opens a
    sequence: 0 for an ASCII byte, 1 for [110xxxxx], 2 for
    [1110xxxx], 3 for [11110xxx]; [None] for a byte that cannot open
    a sequence. *)
Definition trailers (a : Z) : option nat :=
  if (0 <=? a) && (a <? 0x80) then Some 0%nat
  else if Z.shiftr a 5 =? 6 then Some 1%nat
  else if Z.shiftr a 4 =? 14 then Some 2%nat
  else if Z.shiftr a 3 =? 30 then Some 3%nat
  else None.

(** [pending k bytes]: reading [bytes] with [k] continuation bytes
    still owed, every leader is followed by exactly the number of
    continuation bytes it announces; the result is the number still
    owed when the bytes run out, [None] when the bytes are not
    well formed. *)
Fixpoint pending (k : nat) (bytes : list Z) : option nat :=
  match bytes with
  | [] => Some k
  | a :: rest =>
      match k with
      | O => match trailers a with
             | Some n => pending n rest
             | None => None
             end
      | S k' => if is_continuation a then pending k' rest else None
      end
  end.

(** Well-formed UTF-8: nothing is owed at the end. *)
Definition wellformed (bytes : list Z) : bool :=
  match pending 0 bytes with
  | Some O => true
  | _ => false
  end.

Definition has_non_ascii (bytes : list Z) : bool :=
  existsb (fun a => 0x80 <=? a) bytes.

(** The code point a two-byte sequence denotes, and the overlong
    test: a two-byte sequence for a code point below 0x80. *)
Definition decode2 (b1 b2 : Z) : Z :=
  Z.lor (Z.shiftl (Z.land b1 0x1f) 6) (Z.land b2 0x3f).

Definition overlong2 (b1 b2 : Z) : bool :=
  (Z.shiftr b1 5 =? 6) && is_continuation b2 && (decode2 b1 b2 <? 0x80).

End Utf8.

(** ** Exhaustive reasoning on one byte *)

Definition all_bytes : list Z := map Z.of_nat (seq 0 256).

Definition for_all_bytes (p : Z -> bool) : bool := forallb p all_bytes.

(** ** Bytes on which the masks and the templates agree

    Every byte but 0xE1-0xF0; [tests_are_templates] below shows these
    are the bytes the tests of the source and the templates of the
    specification class alike. *)

Definition mask_agrees (a : Z) : bool := negb ((0xe1 <=? a) && (a <=? 0xf0)).

(** ** The invariant of the loop while the stream is still ASCII *)

(** A state in which no byte with the high bit has been seen yet. *)
Definition untouched (s : state) : Prop :=
  nonASCII s = false ->
  validUTF8 s = true /\ validLatin1 s = true /\ utf8Length s = 0.

(** ** The streams the loop accepts

    The grammar read off the tests of lines 31-49, on the masked byte:
    which bytes may open a sequence and how many continuation bytes
    the loop then waits for. *)

Module Accepted.

(** [a & 0x80] is set. *)
Definition high (c : Z) : bool := 0x80 <=? Z.land c 0xff.

(** The bytes of line 35. *)
Definition c1 (c : Z) : bool :=
  (0x80 <=? Z.land c 0xff) && (Z.land c 0xff <? 0xa0).

(** The bytes that pass the test of line 36. *)
Definition is_trailer (a : Z) : bool := (0x80 <=? a) && (a <? 0xc0).

(** The value [utf8Length] takes on a byte read while it is 0 and
    [validUTF8] survives: 0 for a byte below 0x80, 1 for 0xC0-0xDF,
    2 for 0xE0 and 0xF0, 3 for 0xF1-0xF7; [None] for a byte that
    clears [validUTF8]. *)
Definition opens (a : Z) : option nat :=
  if a <? 0x80 then Some 0%nat
  else if (0xc0 <=? a) && (a <? 0xe0) then Some 1%nat
  else if (a =? 0xe0) || (a =? 0xf0) then Some 2%nat
  else if (0xf0 <? a) && (a <? 0xf8) then Some 3%nat
  else None.

(** [owed k bytes]: the number of continuation bytes the loop waits
    for after [bytes], starting with [k] awaited; [None] once a byte
    arrives that the loop rejects. *)
Fixpoint owed (k : nat) (bytes : list Z) : option nat :=
  match bytes with
  | [] => Some k
  | c :: rest =>
      match k with
      | O => match opens (Z.land c 0xff) with
             | Some n => owed n rest
             | None => None
             end
      | S k' => if is_trailer (Z.land c 0xff) then owed k' rest else None
      end
  end.

(** The state after scanning two streams one after the other, from
    the states after each, when the first ends with no continuation
    byte awaited. *)
Definition merge (s t : state) : state :=
  {| utf8Length := utf8Length t;
     validLatin1 := validLatin1 s && validLatin1 t;
     validUTF8 := validUTF8 s && validUTF8 t;
     nonASCII := nonASCII s || nonASCII t |}.

End Accepted.

(** ** The order of the tests of lines 52-58 *)

Definition rank (v : verdict) : nat :=
  match v with
  | ASCII => 0
  | UTF8 => 1
  | Latin1 => 2
  | Unknown => 3
  end.

(** ** [main], lines 62-88

    The process sees its arguments, the bytes of standard input and
    what [fopen] gives for a name; it writes to standard output and
    standard error and returns a status. *)

Module Cli.
Import Stdlib.Strings.String Stdlib.Strings.Ascii Output.
Local Open Scope string_scope.

Record streams : Set := mkStreams { stdout : string; stderr : string }.

Definition print_out (w : streams) (text : string) : streams :=
  {| stdout := stdout w ++ text; stderr := stderr w |}.

Definition print_err (w : streams) (text : string) : streams :=
  {| stdout := stdout w; stderr := stderr w ++ text |}.

(** What [fopen(name, "r")] gives: the bytes [fgetc] will return
    before [EOF], or [None] for [NULL]. *)
Definition files : Type := string -> option (list Z).

Fixpoint spaces (n : nat) : string :=
  match n with
  | O => EmptyString
  | S n' => String " "%char (spaces n')
  end.

(** The conversion [%-10s]: the string, then spaces up to the width. *)
Definition left_justify (width : nat) (s : string) : string :=
  s ++ spaces (width - length s).

(** [checkEncoding] as [main] calls it: it prints the label and
    returns 0. *)
Definition checkEncoding_call (file : list Z) (w : streams) : streams * Z :=
  (print_out w (printed (checkEncoding file)), 0%Z).

(** The [for] loop of lines 74-85 over the arguments still to visit. *)
Fixpoint main_loop (fopen : files) (printName : bool) (names : list string)
                   (w : streams) (retCode : Z) : streams * Z :=
  match names with
  | [] => (w, retCode)
  | name :: rest =>
      match fopen name with
      | None =>
          main_loop fopen printName rest
                    (print_err w (name ++ ": Cannot open" ++ newline)) 1%Z
      | Some file =>
          let w := if printName
                   then print_out w (left_justify 10 name ++ ": ")
                   else w in
          let w := fst (checkEncoding_call file w) in
          main_loop fopen printName rest w retCode
      end
  end.

(** [argv] is the whole vector, the program name first. *)
Definition main (fopen : files) (stdin : list Z) (argv : list string)
  : streams * Z :=
  let argc := Z.of_nat (List.length argv) in
  let w := {| stdout := ""; stderr := "" |} in
  if (argc =? 1)%Z then (fst (checkEncoding_call stdin w), 0%Z)
  else main_loop fopen (2 <? argc)%Z (tl argv) w 0%Z.

(** What one argument adds to each stream. *)
Definition out_line (fopen : files) (printName : bool) (name : string) : string :=
  match fopen name with
  | Some file =>
      (if printName then left_justify 10 name ++ ": " else "")
      ++ printed (checkEncoding file)
  | None => ""
  end.

Definition err_line (fopen : files) (name : string) : string :=
  match fopen name with
  | Some _ => ""
  | None => name ++ ": Cannot open" ++ newline
  end.

Definition opened (fopen : files) (name : string) : bool :=
  match fopen name with Some _ => true | None => false end.

End Cli.

(** * Properties *)

Section ByteCases.

Lemma in_all_bytes (a : Z) : 0 <= a < 256 -> In a all_bytes.
Proof.
  intros Ha. unfold all_bytes.
  rewrite <- (Z2Nat.id a) by lia.
  apply in_map, in_seq. lia.
Qed.

Lemma for_all_bytes_spec (p : Z -> bool) :
  for_all_bytes p = true -> forall a, 0 <= a < 256 -> p a = true.
Proof.
  unfold for_all_bytes. intros Hp a Ha.
  rewrite forallb_forall in Hp. apply Hp, in_all_bytes, Ha.
Qed.

Lemma land_0xff_range (c : Z) : 0 <= Z.land c 0xff < 256.
Proof.
  change 0xff with (Z.ones 8).
  rewrite Z.land_ones by lia.
  apply Z.mod_pos_bound. reflexivity.
Qed.

Lemma land_0xff_byte (a : Z) : 0 <= a < 256 -> Z.land a 0xff = a.
Proof.
  intros Ha. change 0xff with (Z.ones 8).
  rewrite Z.land_ones by lia.
  apply Z.mod_small. exact Ha.
Qed.

(** The five tests of the loop body, as ranges of the byte. *)

Lemma high_bit_test (a : Z) :
  0 <= a < 256 -> (Z.land a 0x80 =? 0) = (a <? 0x80).
Proof.
  intros Ha. apply eqb_prop.
  apply (for_all_bytes_spec
           (fun a => eqb (Z.land a 0x80 =? 0) (a <? 0x80))); [|exact Ha].
  vm_compute. reflexivity.
Qed.

Lemma trailer_test (a : Z) :
  0 <= a < 256 ->
  (Z.land a mask_UTF8trailer =? bits_UTF8trailer) = ((0x80 <=? a) && (a <? 0xc0)).
Proof.
  intros Ha. apply eqb_prop.
  apply (for_all_bytes_spec
           (fun a => eqb (Z.land a mask_UTF8trailer =? bits_UTF8trailer)
                         ((0x80 <=? a) && (a <? 0xc0)))); [|exact Ha].
  vm_compute. reflexivity.
Qed.

Lemma leader1_test (a : Z) :
  0 <= a < 256 ->
  (Z.land a mask_UTF8leader1 =? bits_UTF8leader1) = ((0xc0 <=? a) && (a <? 0xe0)).
Proof.
  intros Ha. apply eqb_prop.
  apply (for_all_bytes_spec
           (fun a => eqb (Z.land a mask_UTF8leader1 =? bits_UTF8leader1)
                         ((0xc0 <=? a) && (a <? 0xe0)))); [|exact Ha].
  vm_compute. reflexivity.
Qed.

(** The mask [0xef] keeps bit 4 out of the comparison only: the test
    holds for [0xe0] and [0xf0] and for no other byte. *)
Lemma leader2_test (a : Z) :
  0 <= a < 256 ->
  (Z.land a mask_UTF8leader2 =? bits_UTF8leader2) = ((a =? 0xe0) || (a =? 0xf0)).
Proof.
  intros Ha. apply eqb_prop.
  apply (for_all_bytes_spec
           (fun a => eqb (Z.land a mask_UTF8leader2 =? bits_UTF8leader2)
                         ((a =? 0xe0) || (a =? 0xf0)))); [|exact Ha].
  vm_compute. reflexivity.
Qed.

Lemma leader3_test (a : Z) :
  0 <= a < 256 ->
  (Z.land a mask_UTF8leader3 =? bits_UTF8leader3) = ((0xf0 <=? a) && (a <? 0xf8)).
Proof.
  intros Ha. apply eqb_prop.
  apply (for_all_bytes_spec
           (fun a => eqb (Z.land a mask_UTF8leader3 =? bits_UTF8leader3)
                         ((0xf0 <=? a) && (a <? 0xf8)))); [|exact Ha].
  vm_compute. reflexivity.
Qed.

(** X16: the tests against the trailer, leader1 and leader3 masks are
    the templates of the comments on lines 4, 8 and 16, which are the
    specification's; the test against [mask_UTF8leader2]
    differs from the template [1110xxxx] exactly on 0xE1-0xF0. *)
Lemma tests_are_templates (a : Z) :
  0 <= a < 256 ->
  (Z.land a mask_UTF8trailer =? bits_UTF8trailer) = Utf8.is_continuation a /\
  (Z.land a mask_UTF8leader1 =? bits_UTF8leader1) = (Z.shiftr a 5 =? 6) /\
  (Z.land a mask_UTF8leader3 =? bits_UTF8leader3) = (Z.shiftr a 3 =? 30) /\
  eqb (Z.land a mask_UTF8leader2 =? bits_UTF8leader2) (Z.shiftr a 4 =? 14)
  = mask_agrees a.
Proof.
  intros Ha.
  assert (H : for_all_bytes
                (fun a =>
                   eqb (Z.land a mask_UTF8trailer =? bits_UTF8trailer)
                       (Utf8.is_continuation a)
                   && eqb (Z.land a mask_UTF8leader1 =? bits_UTF8leader1)
                          (Z.shiftr a 5 =? 6)
                   && eqb (Z.land a mask_UTF8leader3 =? bits_UTF8leader3)
                          (Z.shiftr a 3 =? 30)
                   && eqb (eqb (Z.land a mask_UTF8leader2 =? bits_UTF8leader2)
                               (Z.shiftr a 4 =? 14))
                          (mask_agrees a)) = true)
    by (vm_compute; reflexivity).
  apply for_all_bytes_spec with (a := a) in H; [|exact Ha].
  repeat (apply andb_prop in H as [H ?]).
  repeat split; apply eqb_prop; assumption.
Qed.

End ByteCases.

(** Rewrites the tests of [step] on a byte [a] into comparisons and
    splits on them. *)
Ltac byte_tests Ha :=
  rewrite ?(high_bit_test _ Ha), ?(trailer_test _ Ha), ?(leader1_test _ Ha),
          ?(leader2_test _ Ha), ?(leader3_test _ Ha).

Ltac split_tests :=
  repeat (match goal with
          | |- context [?x <? ?y] => destruct (Z.ltb_spec x y)
          | |- context [?x <=? ?y] => destruct (Z.leb_spec x y)
          | |- context [?x =? ?y] => destruct (Z.eqb_spec x y)
          end;
          cbn [andb orb negb utf8Length validLatin1 validUTF8 nonASCII
               set_utf8Length set_validLatin1 set_validUTF8 set_nonASCII] in *).

(** ** One step *)

Section Step.

Variable s : state.

(** The step only looks at the low eight bits of what [fgetc] gave. *)
Lemma step_masks (c : Z) : step s c = step s (Z.land c 0xff).
Proof.
  unfold step. rewrite (land_0xff_byte (Z.land c 0xff)); [reflexivity|].
  apply land_0xff_range.
Qed.

Lemma step_ascii (a : Z) :
  0 <= a < 0x80 ->
  step s a = if negb (utf8Length s =? 0)
             then set_utf8Length (set_validUTF8 s false) 0 else s.
Proof.
  intros Ha. assert (Hb : 0 <= a < 256) by lia.
  unfold step. rewrite (land_0xff_byte a Hb). byte_tests Hb.
  destruct (Z.ltb_spec a 0x80); [reflexivity | lia].
Qed.

Lemma step_validLatin1_gen (a : Z) :
  0 <= a < 256 ->
  validLatin1 (step s a)
  = validLatin1 s && negb ((0x80 <=? a) && (a <? 0xa0)).
Proof.
  intros Ha. unfold step, leader. rewrite (land_0xff_byte a Ha). byte_tests Ha.
  destruct s as [len l1 u8 na]; cbn.
  destruct (len =? 0); split_tests; cbn;
    try lia; destruct l1; reflexivity.
Qed.

Lemma step_validUTF8_false (c : Z) :
  validUTF8 s = false -> validUTF8 (step s c) = false.
Proof.
  intros Hs. unfold step, leader.
  repeat match goal with
         | |- context [if ?b then _ else _] => destruct b
         end; cbn; try exact Hs; reflexivity.
Qed.

Lemma step_validLatin1_false (c : Z) :
  validLatin1 s = false -> validLatin1 (step s c) = false.
Proof.
  intros Hs. unfold step, leader.
  repeat match goal with
         | |- context [if ?b then _ else _] => destruct b
         end; cbn; try exact Hs; reflexivity.
Qed.

Lemma step_nonASCII_true (c : Z) :
  nonASCII s = true -> nonASCII (step s c) = true.
Proof.
  intros Hs. unfold step, leader.
  repeat match goal with
         | |- context [if ?b then _ else _] => destruct b
         end; cbn; try exact Hs; reflexivity.
Qed.

Lemma step_utf8Length_bounds (c : Z) :
  0 <= utf8Length s <= 3 -> 0 <= utf8Length (step s c) <= 3.
Proof.
  intros Hs. unfold step, leader.
  repeat match goal with
         | |- context [if ?b then _ else _] => destruct b eqn:?
         end; cbn in *; lia.
Qed.

End Step.

(** ** The whole loop *)

Section Scan.

Lemma scan_from_app (s : state) (pre suf : list Z) :
  scan_from s (pre ++ suf) = scan_from (scan_from s pre) suf.
Proof. apply fold_left_app. Qed.

Lemma scan_app (pre suf : list Z) :
  scan (pre ++ suf) = scan_from (scan pre) suf.
Proof. apply scan_from_app. Qed.

Lemma scan_from_validUTF8_false (bytes : list Z) :
  forall s, validUTF8 s = false -> validUTF8 (scan_from s bytes) = false.
Proof.
  induction bytes as [|c bytes IH]; intros s Hs; [exact Hs|].
  cbn. apply IH, step_validUTF8_false, Hs.
Qed.

Lemma scan_from_validLatin1_false (bytes : list Z) :
  forall s, validLatin1 s = false -> validLatin1 (scan_from s bytes) = false.
Proof.
  induction bytes as [|c bytes IH]; intros s Hs; [exact Hs|].
  cbn. apply IH, step_validLatin1_false, Hs.
Qed.

Lemma scan_from_nonASCII_true (bytes : list Z) :
  forall s, nonASCII s = true -> nonASCII (scan_from s bytes) = true.
Proof.
  induction bytes as [|c bytes IH]; intros s Hs; [exact Hs|].
  cbn. apply IH, step_nonASCII_true, Hs.
Qed.

(** [utf8Length] stays within [0..3] along the whole scan, so the
    decrement of line 37 never leaves the range of a C [int]. *)
Lemma scan_from_utf8Length_bounds (bytes : list Z) :
  forall s, 0 <= utf8Length s <= 3 -> 0 <= utf8Length (scan_from s bytes) <= 3.
Proof.
  induction bytes as [|c bytes IH]; intros s Hs; [exact Hs|].
  cbn. apply IH, step_utf8Length_bounds, Hs.
Qed.

(** X9: after every prefix of every stream [utf8Length] is between 0
    and 3, so line 37 never decrements below 0 and the C [int] never
    overflows. *)
Lemma utf8Length_bounds (bytes : list Z) (n : nat) :
  0 <= utf8Length (scan (firstn n bytes)) <= 3.
Proof. apply scan_from_utf8Length_bounds. cbn. lia. Qed.

Lemma step_untouched (s : state) (c : Z) :
  untouched s -> untouched (step s c).
Proof.
  unfold untouched, step, leader. intros Hs.
  destruct (Z.land (Z.land c 255) 128 =? 0).
  - destruct (utf8Length s =? 0) eqn:E; cbn.
    + exact Hs.
    + intros Hn. destruct (Hs Hn) as (_ & _ & H0).
      rewrite H0 in E. discriminate.
  - repeat match goal with
           | |- context [if ?b then _ else _] => destruct b
           end; cbn; discriminate.
Qed.

Lemma scan_from_untouched (bytes : list Z) :
  forall s, untouched s -> untouched (scan_from s bytes).
Proof.
  induction bytes as [|c bytes IH]; intros s Hs; [exact Hs|].
  cbn. apply IH, step_untouched, Hs.
Qed.

Lemma initial_untouched : untouched initial.
Proof. intros _. repeat split. Qed.

Lemma scan_from_ascii (bytes : list Z) :
  Forall (fun b => 0 <= b < 0x80) bytes ->
  forall s, utf8Length s = 0 -> scan_from s bytes = s.
Proof.
  induction 1 as [|b bytes Hb _ IH]; intros s Hs; [reflexivity|].
  cbn. rewrite (step_ascii s b Hb), Hs. cbn. apply IH, Hs.
Qed.

End Scan.

(** ** The verdict *)

Section Verdict.

Lemma resolve_UTF8 (s : state) :
  resolve s = UTF8 <-> nonASCII s = true /\ validUTF8 s = true.
Proof.
  unfold resolve.
  destruct (nonASCII s), (validUTF8 s), (validLatin1 s); cbn;
    split; try discriminate; try (intros [? ?]; discriminate); auto.
Qed.

Lemma resolve_ASCII (s : state) :
  resolve s = ASCII <-> nonASCII s = false.
Proof.
  unfold resolve.
  destruct (nonASCII s), (validUTF8 s), (validLatin1 s); cbn;
    split; try discriminate; auto.
Qed.

End Verdict.

(** ** Streams of ASCII bytes *)

(** C6: a stream whose bytes are all below 0x80, the empty stream
    included, is classified ASCII. *)
Theorem ascii_stream_is_ASCII (bytes : list Z) :
  Forall (fun b => 0 <= b < 0x80) bytes -> checkEncoding bytes = ASCII.
Proof.
  intros Hb. unfold checkEncoding, scan.
  rewrite (scan_from_ascii bytes Hb initial eq_refl). reflexivity.
Qed.

Lemma ascii_stream_is_ASCII_witness :
  Forall (fun b => 0 <= b < 0x80) [0x48; 0x69] /\
  checkEncoding [0x48; 0x69] = ASCII /\ checkEncoding [] = ASCII.
Proof.
  assert (H : Forall (fun b => 0 <= b < 0x80) [0x48; 0x69])
    by (repeat constructor; lia).
  split; [exact H|].
  split; [apply (ascii_stream_is_ASCII [0x48; 0x69] H)|].
  apply (ascii_stream_is_ASCII []). constructor.
Defined.

(** ** The Latin-1 flag *)

(** C7: one step clears [validLatin1] exactly for a byte of the range
    0x80-0x9F; a byte below 0x80 or from 0xA0 up leaves the flag as it
    was. *)
Theorem step_validLatin1 (s : state) (b : Z) :
  0 <= b < 256 ->
  (0x80 <= b <= 0x9f -> validLatin1 (step s b) = false) /\
  (b < 0x80 \/ 0xa0 <= b -> validLatin1 (step s b) = validLatin1 s).
Proof.
  intros Hb. rewrite (step_validLatin1_gen s b Hb).
  split; intros Hr; split_tests; try lia;
    first [apply andb_false_r | apply andb_true_r].
Qed.

Lemma step_validLatin1_witness :
  validLatin1 (step initial 0x9f) = false /\
  validLatin1 (step initial 0xa0) = validLatin1 initial /\
  validLatin1 (step initial 0x7f) = validLatin1 initial.
Proof.
  split; [|split].
  - apply (step_validLatin1 initial 0x9f); lia.
  - apply (step_validLatin1 initial 0xa0); lia.
  - apply (step_validLatin1 initial 0x7f); lia.
Defined.

(** ** Monotone flags *)

(** C8: both flags start true, and a flag that is false after a prefix
    of the stream is still false after any further bytes. *)
Theorem flags_monotone (pre suf : list Z) :
  (validUTF8 initial = true /\ validLatin1 initial = true) /\
  (validUTF8 (scan pre) = false -> validUTF8 (scan (pre ++ suf)) = false) /\
  (validLatin1 (scan pre) = false -> validLatin1 (scan (pre ++ suf)) = false).
Proof.
  split; [split; reflexivity|].
  rewrite scan_app. split; intros H.
  - apply scan_from_validUTF8_false, H.
  - apply scan_from_validLatin1_false, H.
Qed.

Lemma flags_monotone_witness :
  (validUTF8 (scan [0x80]) = false /\ validLatin1 (scan [0x80]) = false) /\
  validUTF8 (scan ([0x80] ++ [0xc3; 0xa9; 0x41])) = false /\
  validLatin1 (scan ([0x80] ++ [0xc3; 0xa9; 0x41])) = false.
Proof.
  destruct (flags_monotone [0x80] [0xc3; 0xa9; 0x41]) as (_ & Hu & Hl).
  split; [split; reflexivity|].
  split; [apply Hu | apply Hl]; reflexivity.
Defined.

(** ** Streams that are ASCII so far *)

(** C10: after any prefix of any stream, if [nonASCII] is still false
    then [validUTF8] and [validLatin1] are still true and [utf8Length]
    is 0; hence an ASCII verdict is only given from such a state. *)
Theorem ascii_so_far_untouched (bytes : list Z) (n : nat) :
  (nonASCII (scan (firstn n bytes)) = false ->
   validUTF8 (scan (firstn n bytes)) = true /\
   validLatin1 (scan (firstn n bytes)) = true /\
   utf8Length (scan (firstn n bytes)) = 0) /\
  (checkEncoding bytes = ASCII ->
   validUTF8 (scan bytes) = true /\
   validLatin1 (scan bytes) = true /\
   utf8Length (scan bytes) = 0).
Proof.
  split.
  - apply (scan_from_untouched (firstn n bytes) initial initial_untouched).
  - intros H. apply resolve_ASCII in H.
    apply (scan_from_untouched bytes initial initial_untouched), H.
Qed.

Lemma ascii_so_far_untouched_witness :
  nonASCII (scan (firstn 2 [0x48; 0x69; 0xc3; 0xa9])) = false /\
  (validUTF8 (scan (firstn 2 [0x48; 0x69; 0xc3; 0xa9])) = true /\
   validLatin1 (scan (firstn 2 [0x48; 0x69; 0xc3; 0xa9])) = true /\
   utf8Length (scan (firstn 2 [0x48; 0x69; 0xc3; 0xa9])) = 0).
Proof.
  split; [reflexivity|].
  apply (proj1 (ascii_so_far_untouched [0x48; 0x69; 0xc3; 0xa9] 2)).
  reflexivity.
Defined.

(** ** The byte classes of the specification, as ranges *)

Section Classes.

Lemma shiftr_range (a k lo : Z) :
  0 <= k -> (Z.shiftr a k =? lo) = true <-> lo * 2 ^ k <= a < (lo + 1) * 2 ^ k.
Proof.
  intros Hk. rewrite Z.eqb_eq, Z.shiftr_div_pow2 by exact Hk.
  assert (Hp : 0 < 2 ^ k) by (apply Z.pow_pos_nonneg; lia).
  split; intros H.
  - subst lo. pose proof (Z.mul_div_le a (2 ^ k) Hp).
    pose proof (Z.mul_succ_div_gt a (2 ^ k) Hp). lia.
  - symmetry. apply (Z.div_unique a (2 ^ k) lo (a - lo * 2 ^ k)); lia.
Qed.

Lemma is_continuation_range (a : Z) :
  Utf8.is_continuation a = true <-> 0x80 <= a < 0xc0.
Proof. unfold Utf8.is_continuation. rewrite shiftr_range by lia. lia. Qed.

Lemma is_continuation_false (a : Z) :
  Utf8.is_continuation a = false <-> ~ 0x80 <= a < 0xc0.
Proof.
  rewrite <- is_continuation_range.
  destruct (Utf8.is_continuation a); split; congruence.
Qed.

Lemma trailers_range (a : Z) (n : nat) :
  Utf8.trailers a = Some n ->
  (n = 0%nat /\ 0 <= a < 0x80) \/
  (n = 1%nat /\ 0xc0 <= a < 0xe0) \/
  (n = 2%nat /\ 0xe0 <= a < 0xf0) \/
  (n = 3%nat /\ 0xf0 <= a < 0xf8).
Proof.
  unfold Utf8.trailers.
  destruct ((0 <=? a) && (a <? 0x80)) eqn:E0.
  { intros [= <-]. left. split_tests; try discriminate.
    apply andb_prop in E0. lia. }
  destruct (Z.shiftr a 5 =? 6) eqn:E1.
  { intros [= <-]. apply shiftr_range in E1; lia. }
  destruct (Z.shiftr a 4 =? 14) eqn:E2.
  { intros [= <-]. apply shiftr_range in E2; lia. }
  destruct (Z.shiftr a 3 =? 30) eqn:E3.
  { intros [= <-]. apply shiftr_range in E3; lia. }
  discriminate.
Qed.

End Classes.

(** ** One step, by class of byte *)

Section StepClasses.

Variable s : state.

Lemma step_continuation (a : Z) :
  0x80 <= a < 0xc0 -> utf8Length s <> 0 ->
  utf8Length (step s a) = utf8Length s - 1 /\
  validUTF8 (step s a) = validUTF8 s /\ nonASCII (step s a) = true.
Proof.
  intros Ha Hs. assert (Hb : 0 <= a < 256) by lia.
  unfold step, leader. rewrite (land_0xff_byte a Hb). byte_tests Hb.
  destruct s as [len l1 u8 na]; cbn in *.
  split_tests; cbn; try lia; repeat split; reflexivity.
Qed.

(** A leader the masks recognise with the count it announces: a byte
    of 0xC0-0xDF, 0xE0, or 0xF1-0xF7. *)
Lemma step_leader (a : Z) (n : nat) :
  Utf8.trailers a = Some (S n) -> utf8Length s = 0 ->
  0xc0 <= a < 0xe0 \/ a = 0xe0 \/ 0xf0 < a < 0xf8 ->
  utf8Length (step s a) = Z.of_nat (S n) /\
  validUTF8 (step s a) = validUTF8 s /\ nonASCII (step s a) = true.
Proof.
  intros Ht Hs Ha. apply trailers_range in Ht.
  assert (Hb : 0 <= a < 256) by lia.
  unfold step, leader. rewrite (land_0xff_byte a Hb). byte_tests Hb.
  destruct s as [len l1 u8 na]; cbn in *. subst len.
  split_tests; cbn; try lia; repeat split; try reflexivity; lia.
Qed.

(** A leader arriving while continuation bytes are owed, and a byte of
    0xE1-0xEF in any state, clear [validUTF8]. *)
Lemma step_leader_rejected (a : Z) :
  0xc0 <= a < 0xf8 ->
  utf8Length s <> 0 \/ 0xe0 < a < 0xf0 ->
  validUTF8 (step s a) = false.
Proof.
  intros Ha Hs. assert (Hb : 0 <= a < 256) by lia.
  unfold step, leader. rewrite (land_0xff_byte a Hb). byte_tests Hb.
  destruct s as [len l1 u8 na]; cbn in *.
  split_tests; cbn; try lia; reflexivity.
Qed.

(** Any byte other than a continuation byte, arriving while
    continuation bytes are owed, clears [validUTF8]. *)
Lemma step_interrupted (a : Z) :
  0 <= a < 256 -> ~ 0x80 <= a < 0xc0 -> utf8Length s <> 0 ->
  validUTF8 (step s a) = false.
Proof.
  intros Hb Ha Hs.
  unfold step, leader. rewrite (land_0xff_byte a Hb). byte_tests Hb.
  destruct s as [len l1 u8 na]; cbn in *.
  split_tests; cbn; try lia; reflexivity.
Qed.

(** The bytes the test against [mask_UTF8leader2] gets wrong. *)
Lemma step_E1_EF (a : Z) :
  0xe0 < a < 0xf0 ->
  utf8Length (step s a) = utf8Length s /\ validUTF8 (step s a) = false.
Proof.
  intros Ha. assert (Hb : 0 <= a < 256) by lia.
  unfold step, leader. rewrite (land_0xff_byte a Hb). byte_tests Hb.
  destruct s as [len l1 u8 na]; cbn in *.
  split_tests; cbn; try lia; split; reflexivity.
Qed.

Lemma step_F0 :
  utf8Length s = 0 ->
  utf8Length (step s 0xf0) = 2 /\ validUTF8 (step s 0xf0) = validUTF8 s.
Proof.
  intros Hs. destruct s as [len l1 u8 na]; cbn in *. subst len.
  split; reflexivity.
Qed.

End StepClasses.

(** ** Truncated sequences *)

Section Truncated.

Lemma scan_from_continuations (conts : list Z) :
  forallb Utf8.is_continuation conts = true ->
  forall s, Z.of_nat (length conts) <= utf8Length s ->
  utf8Length (scan_from s conts) = utf8Length s - Z.of_nat (length conts) /\
  validUTF8 (scan_from s conts) = validUTF8 s.
Proof.
  induction conts as [|a conts IH]; intros Hc s Hs.
  - cbn. split; [lia | reflexivity].
  - cbn [forallb] in Hc. apply andb_prop in Hc as [Ha Hc].
    apply is_continuation_range in Ha.
    cbn [length] in Hs.
    destruct (step_continuation s a Ha) as (Hl & Hv & _); [lia|].
    destruct (IH Hc (step s a)) as [IHl IHv]; [lia|].
    change (scan_from s (a :: conts)) with (scan_from (step s a) conts).
    rewrite IHl, IHv, Hl, Hv. cbn [length].
    split; [lia | reflexivity].
Qed.

(** A leader, fewer continuation bytes than it announces, and then a
    byte that is not a continuation byte: whatever the state before,
    [validUTF8] is false after. *)
Lemma scan_from_truncated (s : state) (lead next : Z) (conts : list Z) (n : nat) :
  Utf8.trailers lead = Some n -> (1 <= n)%nat -> lead <> 0xf0 ->
  forallb Utf8.is_continuation conts = true -> (length conts < n)%nat ->
  0 <= next < 256 -> Utf8.is_continuation next = false ->
  validUTF8 (scan_from s (lead :: conts ++ [next])) = false.
Proof.
  intros Ht Hn Hf Hc Hlen Hb Hnext.
  apply is_continuation_false in Hnext.
  destruct n as [|n]; [lia|].
  pose proof (trailers_range _ _ Ht) as Hr.
  change (scan_from s (lead :: conts ++ [next]))
    with (scan_from (step s lead) (conts ++ [next])).
  destruct (Z.eq_dec (utf8Length s) 0) as [H0|H0].
  - assert (Hcase : 0xe0 < lead < 0xf0 \/
                    (0xc0 <= lead < 0xe0 \/ lead = 0xe0 \/ 0xf0 < lead < 0xf8))
      by lia.
    destruct Hcase as [Hbad|Hgood].
    + apply scan_from_validUTF8_false, step_leader_rejected; lia.
    + destruct (step_leader s lead n Ht H0 Hgood) as (Hl & _ & _).
      rewrite scan_from_app.
      destruct (scan_from_continuations conts Hc (step s lead)) as [Hl' _];
        [lia|].
      change (scan_from (scan_from (step s lead) conts) [next])
        with (step (scan_from (step s lead) conts) next).
      apply step_interrupted; [exact Hb|exact Hnext|lia].
  - apply scan_from_validUTF8_false, step_leader_rejected; lia.
Qed.

End Truncated.

(** ** Well-formed streams *)

Section WellFormed.

Lemma scan_from_wellformed (bytes : list Z) :
  forall (k : nat) (s : state),
  Utf8.pending k bytes = Some 0%nat ->
  forallb mask_agrees bytes = true ->
  utf8Length s = Z.of_nat k ->
  validUTF8 (scan_from s bytes) = validUTF8 s /\
  (Utf8.has_non_ascii bytes = true -> nonASCII (scan_from s bytes) = true).
Proof.
  induction bytes as [|a rest IH]; intros k s Hp Hm Hs.
  - split; [reflexivity | discriminate].
  - cbn [forallb] in Hm. apply andb_prop in Hm as [Ha Hm].
    unfold mask_agrees in Ha.
    change (scan_from s (a :: rest)) with (scan_from (step s a) rest).
    cbn [Utf8.has_non_ascii existsb]. fold (Utf8.has_non_ascii rest).
    cbn [Utf8.pending] in Hp. destruct k as [|k].
    + destruct (Utf8.trailers a) as [n|] eqn:Ht; [|discriminate].
      pose proof (trailers_range _ _ Ht) as Hr. destruct n as [|n].
      * assert (Ha0 : 0 <= a < 0x80) by lia.
        rewrite (step_ascii s a Ha0), Hs. cbn [Z.of_nat Z.eqb negb].
        destruct (IH 0%nat s Hp Hm Hs) as [IHv IHn].
        split; [exact IHv|]. intros Hn. apply IHn.
        destruct (Z.leb_spec 0x80 a); [lia | exact Hn].
      * assert (Hg : 0xc0 <= a < 0xe0 \/ a = 0xe0 \/ 0xf0 < a < 0xf8)
          by (revert Ha; split_tests; intros; try discriminate; lia).
        destruct (step_leader s a n Ht Hs Hg) as (Hl & Hv & Hn).
        destruct (IH (S n) (step s a) Hp Hm Hl) as [IHv _].
        split; [congruence|]. intros _.
        apply scan_from_nonASCII_true, Hn.
    + destruct (Utf8.is_continuation a) eqn:Hc; [|discriminate].
      apply is_continuation_range in Hc.
      destruct (step_continuation s a Hc) as (Hl & Hv & Hn); [lia|].
      destruct (IH k (step s a) Hp Hm) as [IHv _]; [lia|].
      split; [congruence|]. intros _.
      apply scan_from_nonASCII_true, Hn.
Qed.

(** Well-formed UTF-8 with a byte of 0x80 or more and no byte of
    0xE1-0xF0 is classified UTF8. *)
Lemma wellformed_agreeing_is_UTF8 (bytes : list Z) :
  Utf8.wellformed bytes = true ->
  Utf8.has_non_ascii bytes = true ->
  forallb mask_agrees bytes = true ->
  checkEncoding bytes = UTF8.
Proof.
  unfold Utf8.wellformed. intros Hw Hn Hm.
  destruct (Utf8.pending 0 bytes) as [[|k]|] eqn:Hp; try discriminate.
  destruct (scan_from_wellformed bytes 0%nat initial Hp Hm eq_refl) as [Hv Hna].
  apply resolve_UTF8. split; [apply Hna, Hn | exact Hv].
Qed.

End WellFormed.

(** C3: the three bytes of the euro sign, 0xE2 0x82 0xAC, are
    well-formed UTF-8 with bytes of 0x80 and more, and the stream made
    of them is classified Unknown: 0xE2 fails the test against
    [mask_UTF8leader2] and clears [validUTF8]. *)
Theorem euro_sign_is_Unknown :
  Utf8.wellformed [0xe2; 0x82; 0xac] = true /\
  Utf8.has_non_ascii [0xe2; 0x82; 0xac] = true /\
  validUTF8 (scan [0xe2]) = false /\
  checkEncoding [0xe2; 0x82; 0xac] = Unknown.
Proof. repeat split. Qed.

(** ** The end of the stream *)

(** C1: the verdict does not look at [utf8Length]; the stream made of
    the lone leader 0xC3 ends with one continuation byte owed and is
    classified UTF8. *)
Theorem dangling_leader_is_UTF8 :
  (forall (s : state) (n : Z), resolve (set_utf8Length s n) = resolve s) /\
  utf8Length (scan [0xc3]) = 1 /\
  validUTF8 (scan [0xc3]) = true /\
  checkEncoding [0xc3] = UTF8.
Proof. repeat split. Qed.

(** ** The mask of the three-byte leaders *)

(** C2: with no continuation byte owed, the byte 0xE1 (top four bits
    1110) leaves [utf8Length] at 0 and clears [validUTF8]; of the
    bytes 0xE0-0xEF only 0xE0 sets [utf8Length] to 2. *)
Theorem leader2_mask_rejects_E1 :
  utf8Length (step initial 0xe0) = 2 /\
  validUTF8 (step initial 0xe0) = true /\
  utf8Length (step initial 0xe1) = 0 /\
  validUTF8 (step initial 0xe1) = false /\
  filter (fun a => utf8Length (step initial a) =? 2) all_bytes = [0xe0; 0xf0].
Proof. repeat split. Qed.

(** C4: with no continuation byte owed, the byte 0xF0 (top five bits
    11110) sets [utf8Length] to 2, not 3: it passes the test against
    [mask_UTF8leader2] as well as the one against [mask_UTF8leader3],
    and the first is tried first. *)
Theorem leader2_mask_takes_F0 :
  utf8Length (step initial 0xf0) = 2 /\
  (Z.land 0xf0 mask_UTF8leader2 =? bits_UTF8leader2) = true /\
  (Z.land 0xf0 mask_UTF8leader3 =? bits_UTF8leader3) = true /\
  filter (fun a => utf8Length (step initial a) =? 3) all_bytes
  = [0xf1; 0xf2; 0xf3; 0xf4; 0xf5; 0xf6; 0xf7].
Proof. repeat split. Qed.

(** ** The counter inside a sequence *)

(** C9: after the first byte of the well-formed sequence
    0xE2 0x82 0xAC the scan is inside a three-byte sequence with two
    continuation bytes owed, and [utf8Length] is 0; after the first
    three bytes of 0xF0 0x9F 0x98 0x80 one continuation byte is owed
    and [utf8Length] is 0. *)
Theorem utf8Length_zero_inside_sequence :
  Utf8.wellformed [0xe2; 0x82; 0xac] = true /\
  Utf8.pending 0 (firstn 1 [0xe2; 0x82; 0xac]) = Some 2%nat /\
  utf8Length (scan (firstn 1 [0xe2; 0x82; 0xac])) = 0 /\
  Utf8.wellformed [0xf0; 0x9f; 0x98; 0x80] = true /\
  Utf8.pending 0 (firstn 3 [0xf0; 0x9f; 0x98; 0x80]) = Some 1%nat /\
  utf8Length (scan (firstn 3 [0xf0; 0x9f; 0x98; 0x80])) = 0.
Proof. repeat split. Qed.

(** ** Overlong and truncated sequences *)

Lemma overlong2_is_UTF8 (b1 b2 : Z) :
  Utf8.overlong2 b1 b2 = true -> checkEncoding [b1; b2] = UTF8.
Proof.
  unfold Utf8.overlong2. intros H.
  apply andb_prop in H as [H _]. apply andb_prop in H as [H1 H2].
  pose proof (proj1 (shiftr_range b1 5 6 ltac:(lia)) H1) as R1.
  pose proof (proj1 (is_continuation_range b2) H2) as R2.
  apply wellformed_agreeing_is_UTF8.
  - unfold Utf8.wellformed, Utf8.pending, Utf8.trailers. rewrite H1, H2.
    destruct (Z.leb_spec 0 b1), (Z.ltb_spec b1 0x80); cbn; try lia; reflexivity.
  - cbn. destruct (Z.leb_spec 0x80 b1); [reflexivity | lia].
  - cbn. unfold mask_agrees.
    destruct (Z.leb_spec 0xe1 b1), (Z.leb_spec 0xe1 b2); cbn; try lia; reflexivity.
Qed.

(** C5: a stream in which a leader other than 0xF0 is followed by
    fewer continuation bytes than it announces and then by a byte that
    is not a continuation byte is never classified UTF8, wherever the
    truncated sequence stands in the stream; overlong sequences are
    not looked for, and the stream made of one overlong two-byte
    sequence is classified UTF8. *)
Theorem truncated_midstream_not_UTF8
  (pre post conts : list Z) (lead next : Z) (n : nat) (b1 b2 : Z) :
  (Utf8.trailers lead = Some n -> (1 <= n)%nat -> lead <> 0xf0 ->
   forallb Utf8.is_continuation conts = true -> (length conts < n)%nat ->
   0 <= next < 256 -> Utf8.is_continuation next = false ->
   checkEncoding (pre ++ lead :: conts ++ next :: post) <> UTF8) /\
  (Utf8.overlong2 b1 b2 = true -> checkEncoding [b1; b2] = UTF8).
Proof.
  split; [|apply overlong2_is_UTF8].
  intros Ht Hn Hf Hc Hlen Hb Hnext Hv.
  apply resolve_UTF8 in Hv as [_ Hv].
  replace (pre ++ lead :: conts ++ next :: post)
    with (pre ++ (lead :: conts ++ [next]) ++ post) in Hv
    by (cbn; rewrite <- app_assoc; reflexivity).
  rewrite scan_app, scan_from_app in Hv.
  rewrite scan_from_validUTF8_false in Hv; [discriminate|].
  apply (scan_from_truncated _ lead next conts n); assumption.
Qed.

Lemma truncated_midstream_not_UTF8_witness :
  checkEncoding ([0x48] ++ 0xe0 :: [0xa4] ++ 0x28 :: [0xc3; 0xa9]) <> UTF8 /\
  checkEncoding [0xc1; 0xbf] = UTF8.
Proof.
  destruct (truncated_midstream_not_UTF8
              [0x48] [0xc3; 0xa9] [0xa4] 0xe0 0x28 2 0xc1 0xbf) as [Ht Ho].
  split.
  - apply Ht; try reflexivity; cbn; lia.
  - apply Ho. reflexivity.
Defined.

(** C5, as stated, fails on overlong sequences: 0xC0 0x80 is the
    overlong two-byte form of code point 0, and the stream made of it
    is classified UTF8. *)
Lemma overlong_C0_80_is_UTF8 :
  ~ (Utf8.overlong2 0xc0 0x80 = true -> checkEncoding [0xc0; 0x80] <> UTF8).
Proof. intros H. apply H; reflexivity. Qed.

(** * Further properties of [checkEncoding] *)

(** ** The flags, byte by byte *)

Section Flags.

Import Accepted.

Ltac on_masked c a Ha :=
  rewrite (step_masks _ c); unfold high, c1;
  generalize (land_0xff_range c); generalize (Z.land c 0xff);
  intros a Ha.

Lemma step_nonASCII (s : state) (c : Z) :
  nonASCII (step s c) = nonASCII s || high c.
Proof.
  on_masked c a Ha.
  unfold step, leader. rewrite (land_0xff_byte a Ha). byte_tests Ha.
  destruct s as [len l1 u8 na]; cbn.
  destruct (len =? 0); split_tests; cbn; try lia;
    destruct na; reflexivity.
Qed.

Lemma step_validLatin1_any (s : state) (c : Z) :
  validLatin1 (step s c) = validLatin1 s && negb (c1 c).
Proof.
  on_masked c a Ha. apply step_validLatin1_gen, Ha.
Qed.

Lemma scan_from_nonASCII (bytes : list Z) :
  forall s, nonASCII (scan_from s bytes) = nonASCII s || existsb high bytes.
Proof.
  induction bytes as [|c bytes IH]; intros s; cbn [existsb].
  - symmetry. apply orb_false_r.
  - change (scan_from s (c :: bytes)) with (scan_from (step s c) bytes).
    rewrite IH, step_nonASCII. symmetry. apply orb_assoc.
Qed.

Lemma scan_from_validLatin1 (bytes : list Z) :
  forall s,
  validLatin1 (scan_from s bytes)
  = validLatin1 s && forallb (fun c => negb (c1 c)) bytes.
Proof.
  induction bytes as [|c bytes IH]; intros s; cbn [forallb].
  - symmetry. apply andb_true_r.
  - change (scan_from s (c :: bytes)) with (scan_from (step s c) bytes).
    rewrite IH, step_validLatin1_any. symmetry. apply andb_assoc.
Qed.

(** One byte against the grammar: from a state whose [validUTF8] is
    set and whose [utf8Length] is [k], the step keeps [validUTF8] and
    moves [utf8Length] as [opens] and [is_trailer] say, or clears
    [validUTF8]. *)
Lemma step_owed (s : state) (c : Z) (k : nat) :
  utf8Length s = Z.of_nat k -> validUTF8 s = true ->
  match owed k [c] with
  | Some n => validUTF8 (step s c) = true /\ utf8Length (step s c) = Z.of_nat n
  | None => validUTF8 (step s c) = false
  end.
Proof.
  rewrite (step_masks _ c). cbn [owed].
  generalize (land_0xff_range c); generalize (Z.land c 0xff).
  intros a Ha Hk Hv.
  unfold step, leader, opens, is_trailer.
  rewrite (land_0xff_byte a Ha). byte_tests Ha.
  destruct s as [len l1 u8 na]; cbn in Hk, Hv; subst len u8.
  destruct k as [|k].
  - cbn [Z.of_nat]. split_tests; cbn; try lia; split; reflexivity.
  - split_tests; cbn -[Z.of_nat]; try lia; try reflexivity;
      split; try reflexivity; lia.
Qed.

Lemma owed_cons (k : nat) (c : Z) (rest : list Z) :
  owed k (c :: rest)
  = match owed k [c] with Some n => owed n rest | None => None end.
Proof.
  cbn [owed]. destruct k.
  - destruct (opens (Z.land c 0xff)); reflexivity.
  - destruct (is_trailer (Z.land c 0xff)); reflexivity.
Qed.

Lemma step_merge (s t : state) (c : Z) :
  step (merge s t) c = merge s (step t c).
Proof.
  destruct s as [sl s1 s8 sn], t as [tl t1 t8 tn].
  unfold step, leader, merge; cbn.
  destruct (Z.land (Z.land c 255) 128 =? 0), (Z.land c 255 <? 160),
           (tl =? 0); cbn;
    repeat match goal with
           | |- context [if ?b then _ else _] => destruct b
           end; cbn;
    rewrite ?andb_false_r, ?andb_true_r, ?orb_true_r, ?orb_false_r;
    reflexivity.
Qed.

Lemma scan_from_merge (bytes : list Z) :
  forall s t, scan_from (merge s t) bytes = merge s (scan_from t bytes).
Proof.
  induction bytes as [|c bytes IH]; intros s t; [reflexivity|].
  change (scan_from (merge s t) (c :: bytes))
    with (scan_from (step (merge s t) c) bytes).
  rewrite step_merge. apply IH.
Qed.

Lemma merge_initial (s : state) :
  utf8Length s = 0 -> merge s initial = s.
Proof.
  destruct s as [len l1 u8 na]; cbn. intros ->. unfold merge; cbn.
  rewrite !andb_true_r, orb_false_r. reflexivity.
Qed.

End Flags.

(** ** The verdict in closed form *)

Section ClosedForm.

Import Accepted.

Lemma scan_from_owed (bytes : list Z) :
  forall (k : nat) (s : state),
  utf8Length s = Z.of_nat k -> validUTF8 s = true ->
  match owed k bytes with
  | Some n => validUTF8 (scan_from s bytes) = true /\
              utf8Length (scan_from s bytes) = Z.of_nat n
  | None => validUTF8 (scan_from s bytes) = false
  end.
Proof.
  induction bytes as [|c bytes IH]; intros k s Hk Hv.
  - cbn. split; assumption.
  - rewrite owed_cons.
    change (scan_from s (c :: bytes)) with (scan_from (step s c) bytes).
    pose proof (step_owed s c k Hk Hv) as Hs.
    destruct (owed k [c]) as [n|].
    + destruct Hs as [Hv' Hk']. apply IH; assumption.
    + apply scan_from_validUTF8_false, Hs.
Qed.

Lemma existsb_high_false (bytes : list Z) :
  existsb high bytes = false <-> Forall (fun c => Z.land c 0xff < 0x80) bytes.
Proof.
  rewrite Forall_forall. split.
  - intros H c Hc.
    destruct (Z.ltb_spec (Z.land c 0xff) 0x80) as [|Hge]; [assumption|].
    assert (Ht : existsb high bytes = true).
    { apply existsb_exists. exists c. split; [exact Hc|].
      unfold high. apply Z.leb_le, Hge. }
    congruence.
  - intros H. destruct (existsb high bytes) eqn:E; [|reflexivity].
    apply existsb_exists in E as (c & Hc & Hh).
    unfold high in Hh. apply Z.leb_le in Hh. specialize (H c Hc). lia.
Qed.

Lemma nonASCII_scan (bytes : list Z) :
  nonASCII (scan bytes) = existsb high bytes.
Proof. unfold scan. rewrite scan_from_nonASCII. reflexivity. Qed.

Lemma validLatin1_scan (bytes : list Z) :
  validLatin1 (scan bytes) = negb (existsb c1 bytes).
Proof.
  unfold scan. rewrite scan_from_validLatin1. cbn [initial validLatin1 andb].
  induction bytes as [|c bytes IH]; [reflexivity|].
  cbn [forallb existsb]. rewrite IH, negb_orb. reflexivity.
Qed.

Lemma validUTF8_scan (bytes : list Z) :
  validUTF8 (scan bytes) = match owed 0 bytes with Some _ => true | None => false end.
Proof.
  pose proof (scan_from_owed bytes 0%nat initial eq_refl eq_refl) as H.
  fold (scan bytes) in H.
  destruct (owed 0 bytes); [apply H | exact H].
Qed.

End ClosedForm.

(** X1: the verdict is ASCII exactly for the streams with no byte
    whose bit 7 is set. *)
Theorem ASCII_iff_no_high_byte (bytes : list Z) :
  checkEncoding bytes = ASCII <->
  Forall (fun c => Z.land c 0xff < 0x80) bytes.
Proof.
  unfold checkEncoding. rewrite resolve_ASCII, nonASCII_scan.
  apply existsb_high_false.
Qed.

(** X2: along the scan, as long as no byte has been rejected,
    [validUTF8] is set and [utf8Length] is the number of continuation
    bytes the grammar of the tests still awaits; once a byte is
    rejected [validUTF8] is clear, for every prefix of every stream. *)
Theorem utf8Length_is_owed (bytes : list Z) (n : nat) :
  match Accepted.owed 0 (firstn n bytes) with
  | Some k => validUTF8 (scan (firstn n bytes)) = true /\
              utf8Length (scan (firstn n bytes)) = Z.of_nat k
  | None => validUTF8 (scan (firstn n bytes)) = false
  end.
Proof. apply (scan_from_owed (firstn n bytes) 0%nat initial); reflexivity. Qed.

(** X3: the verdict is UTF8 exactly for the streams with a byte of
    0x80 or more that split into bytes below 0x80 and sequences led by
    0xC0-0xDF, by 0xE0 or 0xF0, and by 0xF1-0xF7 with one, two and
    three bytes of 0x80-0xBF after them, the last sequence complete or
    not. *)
Theorem UTF8_iff_accepted (bytes : list Z) :
  checkEncoding bytes = UTF8 <->
  existsb Accepted.high bytes = true /\
  exists k, Accepted.owed 0 bytes = Some k.
Proof.
  unfold checkEncoding.
  rewrite resolve_UTF8, nonASCII_scan, validUTF8_scan.
  destruct (Accepted.owed 0 bytes) as [k|]; split; intros [Hh Hk];
    split; try assumption; try reflexivity.
  - exists k. reflexivity.
  - discriminate.
  - destruct Hk as [k Hk]. discriminate.
Qed.

(** X4: among the streams that are neither ASCII nor UTF8, a byte of
    0x80-0x9F decides: the verdict is Unknown when the stream has one
    and Latin1 when it has none. *)
Theorem Latin1_or_Unknown_by_C1 (bytes : list Z) :
  (checkEncoding bytes = Latin1 <->
   existsb Accepted.high bytes = true /\ Accepted.owed 0 bytes = None /\
   existsb Accepted.c1 bytes = false) /\
  (checkEncoding bytes = Unknown <->
   Accepted.owed 0 bytes = None /\ existsb Accepted.c1 bytes = true).
Proof.
  assert (Hc : existsb Accepted.c1 bytes = true ->
               existsb Accepted.high bytes = true).
  { intros H. apply existsb_exists in H as (c & Hc & H).
    apply existsb_exists. exists c. split; [exact Hc|].
    unfold Accepted.c1 in H. apply andb_prop in H as [H _]. exact H. }
  unfold checkEncoding, resolve.
  rewrite nonASCII_scan, validUTF8_scan, validLatin1_scan.
  destruct (existsb Accepted.high bytes), (Accepted.owed 0 bytes),
           (existsb Accepted.c1 bytes); cbn;
    try (specialize (Hc eq_refl); discriminate);
    repeat split; try discriminate; try reflexivity;
    intros H; decompose [and] H; discriminate.
Qed.

(** ** Bytes that rule UTF8 out *)

Lemma step_rejected_byte (s : state) (c : Z) :
  0xe0 < Z.land c 0xff < 0xf0 \/ 0xf8 <= Z.land c 0xff ->
  validUTF8 (step s c) = false.
Proof.
  rewrite (step_masks s c).
  generalize (land_0xff_range c); generalize (Z.land c 0xff).
  intros a Ha Hr.
  unfold step, leader. rewrite (land_0xff_byte a Ha). byte_tests Ha.
  destruct s as [len l1 u8 na]; cbn.
  split_tests; cbn; try lia; reflexivity.
Qed.

(** X5: a stream holding a byte of 0xE1-0xEF or of 0xF8-0xFF, at any
    place, is never classified UTF8. *)
Theorem rejected_byte_not_UTF8 (bytes : list Z) (c : Z) :
  In c bytes ->
  0xe0 < Z.land c 0xff < 0xf0 \/ 0xf8 <= Z.land c 0xff ->
  checkEncoding bytes <> UTF8.
Proof.
  intros Hin Hc Hv. apply resolve_UTF8 in Hv as [_ Hv].
  apply in_split in Hin as (pre & post & ->).
  change (pre ++ c :: post) with (pre ++ [c] ++ post) in Hv.
  rewrite scan_app, scan_from_app in Hv.
  rewrite scan_from_validUTF8_false in Hv; [discriminate|].
  apply step_rejected_byte, Hc.
Qed.

Lemma rejected_byte_not_UTF8_witness :
  In 0xe9 [0x63; 0x61; 0x66; 0xe9; 0xc3; 0xa9] /\
  checkEncoding [0x63; 0x61; 0x66; 0xe9; 0xc3; 0xa9] <> UTF8.
Proof.
  assert (Hin : In 0xe9 [0x63; 0x61; 0x66; 0xe9; 0xc3; 0xa9])
    by (cbn; tauto).
  split; [exact Hin|].
  apply (rejected_byte_not_UTF8 _ 0xe9 Hin). cbn. lia.
Defined.

(** ** Streams put end to end *)

(** X6: when the first of two streams ends with no continuation byte
    awaited, scanning them end to end gives the conjunction of the two
    [validUTF8] flags and of the two [validLatin1] flags, the
    disjunction of the two [nonASCII] flags, and the [utf8Length] of
    the second. *)
Theorem scan_app_flags (a b : list Z) :
  utf8Length (scan a) = 0 ->
  validUTF8 (scan (a ++ b)) = validUTF8 (scan a) && validUTF8 (scan b) /\
  validLatin1 (scan (a ++ b)) = validLatin1 (scan a) && validLatin1 (scan b) /\
  nonASCII (scan (a ++ b)) = nonASCII (scan a) || nonASCII (scan b) /\
  utf8Length (scan (a ++ b)) = utf8Length (scan b).
Proof.
  intros Ha.
  assert (E : scan (a ++ b) = Accepted.merge (scan a) (scan b)).
  { rewrite scan_app, <- (merge_initial (scan a) Ha) at 1.
    apply scan_from_merge. }
  rewrite E. repeat split.
Qed.

Lemma scan_app_flags_witness :
  validUTF8 (scan ([0xc3; 0xa9] ++ [0x41; 0x85]))
  = validUTF8 (scan [0xc3; 0xa9]) && validUTF8 (scan [0x41; 0x85]) /\
  validLatin1 (scan ([0xc3; 0xa9] ++ [0x41; 0x85]))
  = validLatin1 (scan [0xc3; 0xa9]) && validLatin1 (scan [0x41; 0x85]).
Proof.
  destruct (scan_app_flags [0xc3; 0xa9] [0x41; 0x85] eq_refl)
    as (Hu & Hl & _).
  split; [exact Hu | exact Hl].
Defined.



(** ** The mask of line 30 *)


(** * Properties of [main] *)

Module CliFacts.
Import Stdlib.Strings.String Stdlib.Strings.Ascii Output Cli.
Local Open Scope string_scope.

Lemma append_nil_r (s : string) : s ++ "" = s.
Proof. induction s as [|ch s IH]; cbn; [reflexivity | rewrite IH; reflexivity]. Qed.

Lemma append_assoc (s t u : string) : (s ++ t) ++ u = s ++ (t ++ u).
Proof. induction s as [|ch s IH]; cbn; [reflexivity | rewrite IH; reflexivity]. Qed.

Section Loop.

Variable fopen : files.
Variable printName : bool.

(** The loop in closed form: each argument appends its line to one of
    the two streams, and the status is kept unless an open fails. *)
Lemma main_loop_closed (names : list string) :
  forall (w : streams) (retCode : Z),
  main_loop fopen printName names w retCode
  = ({| stdout := stdout w ++ concat "" (map (out_line fopen printName) names);
        stderr := stderr w ++ concat "" (map (err_line fopen) names) |},
     if forallb (opened fopen) names then retCode else 1%Z).
Proof.
  assert (Hc : forall (f : string -> string) (n : string) (l : list string),
             concat "" (map f (n :: l)) = f n ++ concat "" (map f l)).
  { intros f n [|m l]; cbn; [rewrite append_nil_r|]; reflexivity. }
  induction names as [|name rest IH]; intros [out err] retCode.
  - cbn. rewrite !append_nil_r. reflexivity.
  - cbn [main_loop forallb]. rewrite !Hc.
    unfold out_line at 1, err_line at 1, opened at 1.
    destruct (fopen name) as [file|].
    + rewrite IH. destruct printName; cbn;
        rewrite ?append_assoc, ?append_nil_r; reflexivity.
    + rewrite IH. cbn. rewrite ?append_assoc, ?append_nil_r.
      destruct (forallb (opened fopen) rest); reflexivity.
Qed.

End Loop.

(** X10: the status [main] returns is 0 when every named file could
    be opened (and when none is named), 1 as soon as one could not. *)
Theorem main_exit_status (fopen : files) (stdin : list Z) (argv : list string) :
  snd (main fopen stdin argv)
  = if forallb (opened fopen) (tl argv) then 0%Z else 1%Z.
Proof.
  unfold main. destruct argv as [|prog [|name rest]]; try reflexivity.
  replace (Z.of_nat (List.length (prog :: name :: rest)) =? 1)%Z with false.
  - rewrite main_loop_closed. reflexivity.
  - symmetry. apply Z.eqb_neq. cbn [List.length]. lia.
Qed.

(** X11: standard output is, with no argument, the label of standard
    input; otherwise the lines of the files that open, in the order
    of the arguments, each led by its name left-justified to ten
    columns and a colon when more than one argument is given; a file
    that does not open adds nothing to it. *)
Theorem main_stdout (fopen : files) (stdin : list Z) (argv : list string) :
  stdout (fst (main fopen stdin argv))
  = if (List.length argv =? 1)%nat then printed (checkEncoding stdin)
    else concat "" (map (out_line fopen (2 <? List.length argv)%nat) (tl argv)).
Proof.
  unfold main.
  destruct argv as [|prog [|name rest]]; try reflexivity.
  replace (Z.of_nat (List.length (prog :: name :: rest)) =? 1)%Z with false
    by (symmetry; apply Z.eqb_neq; cbn [List.length]; lia).
  rewrite main_loop_closed. cbn [fst stdout tl].
  replace (2 <? Z.of_nat (List.length (prog :: name :: rest)))%Z
    with (2 <? List.length (prog :: name :: rest))%nat; [reflexivity|].
  destruct (Nat.ltb_spec 2 (List.length (prog :: name :: rest)));
    symmetry; [apply Z.ltb_lt | apply Z.ltb_ge]; lia.
Qed.

(** X12: standard error holds one message for each argument that does
    not open, in the order of the arguments, and nothing else. *)
Theorem main_stderr (fopen : files) (stdin : list Z) (argv : list string) :
  stderr (fst (main fopen stdin argv))
  = concat "" (map (err_line fopen) (tl argv)).
Proof.
  unfold main. destruct argv as [|prog [|name rest]]; try reflexivity.
  replace (Z.of_nat (List.length (prog :: name :: rest)) =? 1)%Z with false
    by (symmetry; apply Z.eqb_neq; cbn [List.length]; lia).
  rewrite main_loop_closed. reflexivity.
Qed.

Lemma concat_out_line_opened (fopen : files) (p : bool) (names : list string) :
  concat "" (map (out_line fopen p) (filter (opened fopen) names))
  = concat "" (map (out_line fopen p) names).
Proof.
  assert (Hc : forall (n : string) (l : list string),
             concat "" (map (out_line fopen p) (n :: l))
             = out_line fopen p n ++ concat "" (map (out_line fopen p) l)).
  { intros n [|m l]; cbn; [rewrite append_nil_r|]; reflexivity. }
  induction names as [|name rest IH]; [reflexivity|].
  cbn [filter]. rewrite (Hc name rest).
  destruct (opened fopen name) eqn:E.
  - rewrite Hc, IH. reflexivity.
  - rewrite IH.
    assert (Hn : out_line fopen p name = "").
    { unfold out_line, opened in *.
      destruct (fopen name); [discriminate | reflexivity]. }
    rewrite Hn. reflexivity.
Qed.

Lemma main_many
  (fopen : files) (stdin : list Z) (prog : string) (names : list string) :
  (2 <= List.length names)%nat ->
  main fopen stdin (prog :: names)
  = main_loop fopen true names {| stdout := ""; stderr := "" |} 0%Z.
Proof.
  intros H2. unfold main. cbn [tl].
  replace (Z.of_nat (List.length (prog :: names)) =? 1)%Z with false
    by (symmetry; apply Z.eqb_neq; cbn [List.length]; lia).
  replace (2 <? Z.of_nat (List.length (prog :: names)))%Z with true
    by (symmetry; apply Z.ltb_lt; cbn [List.length]; lia).
  reflexivity.
Qed.

(** X13: the arguments that do not open never change what is written
    for the others: as long as two arguments or more open, standard
    output is what it is with the failing arguments left out. *)
Theorem main_stdout_skips_failures
  (fopen : files) (stdin : list Z) (prog : string) (names : list string) :
  (2 <= List.length (filter (opened fopen) names))%nat ->
  stdout (fst (main fopen stdin (prog :: names)))
  = stdout (fst (main fopen stdin (prog :: filter (opened fopen) names))).
Proof.
  intros H2.
  pose proof (filter_length_le (opened fopen) names) as Hle.
  rewrite (main_many fopen stdin prog names) by lia.
  rewrite (main_many fopen stdin prog _ H2).
  rewrite !main_loop_closed. cbn [fst stdout].
  rewrite concat_out_line_opened. reflexivity.
Qed.

Lemma main_stdout_skips_failures_witness :
  let fopen := fun name : string =>
                 if (name =? "a.txt")%string then Some [0x48; 0x69]%Z
                 else if (name =? "b.txt")%string then Some [0xc3; 0xa9]%Z
                 else None in
  (2 <= List.length (filter (opened fopen) ["a.txt"; "gone"; "b.txt"]))%nat /\
  stdout (fst (main fopen [] ["enc"; "a.txt"; "gone"; "b.txt"]))
  = stdout (fst (main fopen [] ("enc" :: filter (opened fopen)
                                         ["a.txt"; "gone"; "b.txt"]))).
Proof.
  cbv zeta.
  assert (H : (2 <= List.length
                      (filter (opened (fun name : string =>
                                 if (name =? "a.txt")%string then Some [0x48; 0x69]%Z
                                 else if (name =? "b.txt")%string then Some [0xc3; 0xa9]%Z
                                 else None))
                              ["a.txt"; "gone"; "b.txt"]))%nat)
    by (cbn; lia).
  split; [exact H|].
  apply (main_stdout_skips_failures _ [] "enc" ["a.txt"; "gone"; "b.txt"] H).
Defined.

(** X14: naming one file that opens writes exactly what reading the
    same bytes from standard input writes, and returns the same
    status: the name is not printed for a single argument. *)
Theorem main_one_file_as_stdin
  (fopen : files) (stdin file : list Z) (prog name : string) :
  fopen name = Some file ->
  main fopen stdin [prog; name] = main fopen file [prog].
Proof. intros H. unfold main. cbn. rewrite H. reflexivity. Qed.

Lemma main_one_file_as_stdin_witness :
  main (fun _ => Some [0xc3; 0xa9]%Z) [] ["enc"; "a.txt"]
  = main (fun _ => Some [0xc3; 0xa9]%Z) [0xc3; 0xa9]%Z ["enc"].
Proof.
  apply (main_one_file_as_stdin (fun _ => Some [0xc3; 0xa9]%Z)
                                [] [0xc3; 0xa9]%Z "enc" "a.txt").
  reflexivity.
Defined.

End CliFacts.

(** * The loop against the templates *)

Lemma tests_are_templates_witness :
  (Z.land 0xe2 mask_UTF8trailer =? bits_UTF8trailer) = Utf8.is_continuation 0xe2 /\
  (Z.land 0xe2 mask_UTF8leader1 =? bits_UTF8leader1) = (Z.shiftr 0xe2 5 =? 6) /\
  (Z.land 0xe2 mask_UTF8leader3 =? bits_UTF8leader3) = (Z.shiftr 0xe2 3 =? 30) /\
  eqb (Z.land 0xe2 mask_UTF8leader2 =? bits_UTF8leader2) (Z.shiftr 0xe2 4 =? 14)
  = mask_agrees 0xe2.
Proof. apply (tests_are_templates 0xe2). lia. Defined.

Section Templates.

Lemma byte_grammars_agree (a : Z) :
  0 <= a < 256 -> mask_agrees a = true ->
  Utf8.trailers a = Accepted.opens a /\
  Utf8.is_continuation a = Accepted.is_trailer a.
Proof.
  intros Ha Hm.
  assert (H : for_all_bytes
                (fun a =>
                   implb (mask_agrees a)
                     (match Utf8.trailers a, Accepted.opens a with
                      | Some n, Some m => Nat.eqb n m
                      | None, None => true
                      | _, _ => false
                      end
                      && eqb (Utf8.is_continuation a) (Accepted.is_trailer a)))
              = true)
    by (vm_compute; reflexivity).
  apply for_all_bytes_spec with (a := a) in H; [|exact Ha].
  rewrite Hm in H. cbn [implb] in H. apply andb_prop in H as [Ht Hc].
  split; [|apply eqb_prop, Hc].
  destruct (Utf8.trailers a) as [n|], (Accepted.opens a) as [m|];
    try discriminate; [|reflexivity].
  apply Nat.eqb_eq in Ht. subst. reflexivity.
Qed.

Lemma pending_is_owed (bytes : list Z) :
  Forall (fun c => 0 <= c < 256) bytes ->
  forallb mask_agrees bytes = true ->
  forall k, Utf8.pending k bytes = Accepted.owed k bytes.
Proof.
  induction 1 as [|c bytes Hc _ IH]; intros Hm k; [reflexivity|].
  cbn [forallb] in Hm. apply andb_prop in Hm as [Hmc Hm].
  destruct (byte_grammars_agree c Hc Hmc) as [Ht Hk].
  cbn [Utf8.pending Accepted.owed]. rewrite (land_0xff_byte c Hc), <- Ht, <- Hk.
  destruct k as [|k].
  - destruct (Utf8.trailers c); [apply IH, Hm | reflexivity].
  - destruct (Utf8.is_continuation c); [apply IH, Hm | reflexivity].
Qed.

Lemma has_non_ascii_high (bytes : list Z) :
  Forall (fun c => 0 <= c < 256) bytes ->
  Utf8.has_non_ascii bytes = existsb Accepted.high bytes.
Proof.
  induction 1 as [|c bytes Hc _ IH]; [reflexivity|].
  cbn [Utf8.has_non_ascii existsb]. fold (Utf8.has_non_ascii bytes).
  rewrite IH. unfold Accepted.high. rewrite (land_0xff_byte c Hc). reflexivity.
Qed.

End Templates.

(** X15: on streams of bytes none of which is one of 0xE1-0xF0, the
    verdict is UTF8 exactly when the stream has a byte of 0x80 or more
    and every leader, as the templates read it, is followed by the
    continuation bytes it announces, the last sequence complete or
    not. *)
Theorem UTF8_iff_structure (bytes : list Z) :
  Forall (fun c => 0 <= c < 256) bytes ->
  forallb mask_agrees bytes = true ->
  checkEncoding bytes = UTF8 <->
  Utf8.has_non_ascii bytes = true /\ exists k, Utf8.pending 0 bytes = Some k.
Proof.
  intros Hb Hm. unfold checkEncoding.
  rewrite resolve_UTF8, nonASCII_scan, validUTF8_scan.
  rewrite (has_non_ascii_high bytes Hb), (pending_is_owed bytes Hb Hm).
  destruct (Accepted.owed 0 bytes) as [k|]; split; intros [Hh Hk];
    split; try assumption; try reflexivity.
  - exists k. reflexivity.
  - discriminate.
  - destruct Hk as [k Hk]. discriminate.
Qed.

Lemma UTF8_iff_structure_witness :
  Utf8.pending 0 [0x48; 0xc3; 0xa9; 0xe0; 0xa4; 0x85; 0xf1; 0x80; 0x80; 0x80]
  = Some 0%nat /\
  checkEncoding [0x48; 0xc3; 0xa9; 0xe0; 0xa4; 0x85; 0xf1; 0x80; 0x80; 0x80]
  = UTF8.
Proof.
  split; [reflexivity|].
  apply (UTF8_iff_structure
           [0x48; 0xc3; 0xa9; 0xe0; 0xa4; 0x85; 0xf1; 0x80; 0x80; 0x80]).
  - repeat constructor; lia.
  - reflexivity.
  - split; [reflexivity | exists 0%nat; reflexivity].
Defined.

(** * The verdict along a stream *)

(** X17: reading further bytes only moves the verdict down the order
    of the tests of lines 52-58: from ASCII to UTF8, to Latin1, to
    Unknown, and never back. *)
Theorem verdict_only_degrades (pre suf : list Z) :
  (rank (checkEncoding pre) <= rank (checkEncoding (pre ++ suf)))%nat.
Proof.
  unfold checkEncoding. rewrite scan_app.
  pose proof (scan_from_nonASCII_true suf (scan pre)) as Hn.
  pose proof (scan_from_validUTF8_false suf (scan pre)) as Hu.
  pose proof (scan_from_validLatin1_false suf (scan pre)) as Hl.
  unfold resolve.
  destruct (nonASCII (scan pre)), (validUTF8 (scan pre)),
           (validLatin1 (scan pre));
    cbn [negb rank];
    rewrite ?(Hn eq_refl), ?(Hu eq_refl), ?(Hl eq_refl); cbn [negb rank];
    repeat match goal with
           | |- context [if ?b then _ else _] => destruct b
           end; cbn [rank negb]; lia.
Qed.
